(** * dm-cdk-helper: the step-function chain builder

    A shallow embedding of [packages/step/src/step.stack.ts]: the
    [StepFunctionStack] class, which folds a registry of Lambda functions
    into one chain of Step Functions states and registers the chain as a
    state machine.

    The classes of aws-cdk-lib ([Pass], [LambdaInvoke], [DynamoGetItem],
    [Choice], [Condition], [Chain], [Duration], [StateMachine]) are kept as
    the data the stack hands to them: a constructor call is a constructor of
    the corresponding type, [Chain] is the sequence of states in the order
    [next] attached them.  Two checks of the library decide what the stack
    can build and are part of the embedding: [Chain.next] refuses a chain
    whose last state is a [Choice], and [Duration.minutes] refuses a
    negative amount.  The library's bookkeeping of construct names is not:
    the names a caller passes are taken to be new in the stack.
    [registerTrigger], which only attaches a schedule rule to the state
    machine, is left out.  Numbers are integers.  A call that throws
    reports no stack. *)

From Stdlib Require Import String Ascii List ZArith Bool Lia DecimalString.
Import ListNotations.

Set Warnings "-register-all".

Local Open Scope string_scope.
Local Open Scope list_scope.

(** ** Results of a call

    A method either returns or throws. *)

Inductive outcome (A : Type) : Type :=
| Returned (a : A)
| Thrown (e : string).

Arguments Returned {A} a.
Arguments Thrown {A} e.

(** ** JavaScript [Map]

    A [Map] iterates in insertion order; [set] on a key that is already
    present replaces the value and keeps the key's position. *)

Module JsMap.

Definition t (V : Type) : Type := list (string * V).

Definition empty {V : Type} : t V := [].

Fixpoint set {V : Type} (k : string) (v : V) (m : t V) : t V :=
  match m with
  | [] => [(k, v)]
  | (k', v') :: m' =>
      if String.eqb k k' then (k, v) :: m' else (k', v') :: set k v m'
  end.

Fixpoint get {V : Type} (k : string) (m : t V) : option V :=
  match m with
  | [] => None
  | (k', v') :: m' => if String.eqb k k' then Some v' else get k m'
  end.

Definition size {V : Type} (m : t V) : nat := length m.

Definition values {V : Type} (m : t V) : list V := map snd m.

End JsMap.

(** ** The constructs the stack creates *)

(** [aws-lambda.Function]: the builder reads only [functionName]. *)
Record LambdaFunction : Type := { functionName : string }.

(** [aws-dynamodb.ITable]. *)
Record ITable : Type := { tableName : string }.

Inductive DynamoAttributeValue : Type :=
| DynamoAttributeValue_fromString (value : string).

Inductive Condition : Type :=
| Condition_stringEquals (variable : string) (value : string).

Inductive TimeUnit : Type := Seconds | Minutes.

(** [aws-cdk-lib.Duration]: an amount and its unit. *)
Record Duration : Type := { dur_amount : Z; dur_unit : TimeUnit }.

(** A number as a template literal prints it. *)
Definition Z_toString (z : Z) : string :=
  NilZero.string_of_int (Z.to_int z).

(** [Duration.minutes(amount)]: the library's constructor throws on a
    negative amount. *)
Definition Duration_minutes (amount : Z) : outcome Duration :=
  if (amount <? 0)%Z
  then Thrown ("Duration amounts cannot be negative. Received: "
               ++ Z_toString amount)
  else Returned {| dur_amount := amount; dur_unit := Minutes |}.

(** The library's conversion to seconds; the test suite expects
    [TimeoutSeconds] 300 for a timeout of 5 minutes. *)
Definition Duration_toSeconds (d : Duration) : Z :=
  match dur_unit d with
  | Seconds => dur_amount d
  | Minutes => dur_amount d * 60
  end.

(** States of a state machine.  [Choice] is a class of its own: [when] and
    [otherwise] are its methods, and a [Choice] is chainable as a state. *)
Inductive IChainable : Type :=
| Pass (id : string)
| LambdaInvoke (id : string) (lambdaFunction : LambdaFunction)
    (outputPath : string)
| DynamoGetItem (id : string) (table : ITable)
    (key : list (string * DynamoAttributeValue)) (resultPath : string)
| ChoiceState (c : Choice)
with Choice : Type :=
| mkChoice (id : string) (choices : list (Condition * IChainable))
    (default : option IChainable).

Definition Choice_new (id : string) : Choice := mkChoice id [] None.

Definition Choice_when (c : Choice) (condition : Condition)
    (next : IChainable) : Choice :=
  match c with
  | mkChoice id choices default =>
      mkChoice id (choices ++ [(condition, next)]) default
  end.

Definition Choice_otherwise (c : Choice) (def : IChainable) : Choice :=
  match c with
  | mkChoice id choices _ => mkChoice id choices (Some def)
  end.

(** The [id] a state was created with. *)
Definition state_id (s : IChainable) : string :=
  match s with
  | Pass id => id
  | LambdaInvoke id _ _ => id
  | DynamoGetItem id _ _ _ => id
  | ChoiceState (mkChoice id _ _) => id
  end.

(** The states a state can be continued from: the state itself, but none
    for a [Choice], whose branches end on their own. *)
Definition endStates (s : IChainable) : list IChainable :=
  match s with
  | ChoiceState _ => []
  | _ => [s]
  end.

(** Modelled from the spec: the execution plan is the ordered sequence of
    steps (section 3); [Chain] belongs to aws-cdk-lib.  A chain is kept as
    the states added to it, the last one last. *)
Definition Chain : Type := list IChainable.

Definition Chain_start (state : IChainable) : Chain := [state].

Definition lastAdded (chain : Chain) : option IChainable :=
  last (map Some chain) None.

(** Whether [next] accepts the chain: its last state has an end state. *)
Definition can_chain (chain : Chain) : bool :=
  match lastAdded chain with
  | Some s => match endStates s with [] => false | _ => true end
  | None => false
  end.

(** [chain.next(next)]: the library throws (CannotChainToLastState) when
    the last state of the chain has no end state. *)
Definition Chain_next (chain : Chain) (next : IChainable) : outcome Chain :=
  match lastAdded chain with
  | Some s =>
      match endStates s with
      | [] =>
          Thrown ("Cannot add to chain: last state in chain ("
                  ++ state_id s ++ ") does not allow it")
      | _ => Returned (chain ++ [next])
      end
  | None => Thrown "Cannot add to chain: the chain has no state"
  end.

Record StateMachine : Type := {
  sm_id : string;
  sm_definition : Chain;
  sm_timeout : Duration
}.

(** ** The stack *)

Record ILambdaRegistery : Type := {
  fn : LambdaFunction;
  repeat : bool
}.

Record IStepFunctionProps : Type := {
  cfg_systemTableName : ITable;
  cfg_tenant : string;
  fnRegistry : JsMap.t ILambdaRegistery
}.

(** The fields of a [StepFunctionStack].  [stateMachine], [chain] and
    [chainLink] are declared without initialiser. *)
Record StepFunctionStack : Type := {
  items : JsMap.t IChainable;
  stateMachine : option StateMachine;
  systemTableName : ITable;
  tenant : string;
  chain : option Chain;
  chainLink : option Chain
}.

Definition set_items (f : JsMap.t IChainable -> JsMap.t IChainable)
    (this : StepFunctionStack) : StepFunctionStack :=
  {| items := f (items this);
     stateMachine := stateMachine this;
     systemTableName := systemTableName this;
     tenant := tenant this;
     chain := chain this;
     chainLink := chainLink this |}.

Definition set_stateMachine (sm : StateMachine)
    (this : StepFunctionStack) : StepFunctionStack :=
  {| items := items this;
     stateMachine := Some sm;
     systemTableName := systemTableName this;
     tenant := tenant this;
     chain := chain this;
     chainLink := chainLink this |}.

Definition set_chainLink (c : Chain)
    (this : StepFunctionStack) : StepFunctionStack :=
  {| items := items this;
     stateMachine := stateMachine this;
     systemTableName := systemTableName this;
     tenant := tenant this;
     chain := chain this;
     chainLink := Some c |}.

(** Methods run on [this] and may throw. *)
Definition M (A : Type) : Type :=
  StepFunctionStack -> outcome (A * StepFunctionStack).

Definition ret {A : Type} (a : A) : M A := fun this => Returned (a, this).

Definition bind {A B : Type} (m : M A) (k : A -> M B) : M B :=
  fun this =>
    match m this with
    | Returned (a, this') => k a this'
    | Thrown e => Thrown e
    end.

(** The result of a call that does not touch the stack. *)
Definition lift {A : Type} (r : outcome A) : M A :=
  fun this =>
    match r with
    | Returned a => Returned (a, this)
    | Thrown e => Thrown e
    end.

Definition this_tenant : M string := fun this => Returned (tenant this, this).

Definition this_systemTableName : M ITable :=
  fun this => Returned (systemTableName this, this).

Definition items_set (k : string) (v : IChainable) : M unit :=
  fun this => Returned (tt, set_items (JsMap.set k v) this).

Declare Scope stack_scope.
Delimit Scope stack_scope with stack.
Notation "x <- m ;; k" := (bind m (fun x => k))
  (at level 61, m at next level, right associativity) : stack_scope.
Notation "m ;;; k" := (bind m (fun _ => k))
  (at level 61, right associativity) : stack_scope.
Local Open Scope stack_scope.

(** [fnRegistry.forEach(callback)], the callback updating a local variable
    of the enclosing method. *)
Fixpoint forEach {V S : Type} (callback : V -> S -> M S)
    (m : JsMap.t V) (s : S) : M S :=
  match m with
  | [] => ret s
  | (_, v) :: m' => s' <- callback v s ;; forEach callback m' s'
  end.

Definition registerFn (lambda : LambdaFunction) : M IChainable :=
  let invokeLambda :=
    LambdaInvoke ("Invoke " ++ functionName lambda) lambda "$.Payload" in
  items_set (functionName lambda) invokeLambda ;;;
  ret invokeLambda.

Definition registerCheck (lambdaName : string) : M IChainable :=
  table <- this_systemTableName ;;
  tnt <- this_tenant ;;
  let checkLambdaStatus :=
    DynamoGetItem ("Check " ++ lambdaName ++ " Status") table
      [("id", DynamoAttributeValue_fromString lambdaName);
       ("tenant", DynamoAttributeValue_fromString tnt)]
      "$.dynamodbResult" in
  items_set ("check" ++ lambdaName) checkLambdaStatus ;;;
  ret checkLambdaStatus.

Definition registerChoice (lambda : LambdaFunction) : M IChainable :=
  let c := Choice_new ("Is " ++ functionName lambda ++ " Successful?") in
  let c := Choice_when c
    (Condition_stringEquals "$.dynamodbResult.Item.payload.S" "true")
    (Pass ("Skip " ++ functionName lambda)) in
  invoke <- registerFn lambda ;;
  let isLambdaAlreadySuccessful := ChoiceState (Choice_otherwise c invoke) in
  items_set ("choose" ++ functionName lambda) isLambdaAlreadySuccessful ;;;
  ret isLambdaAlreadySuccessful.

Definition registerSingleRunFn (chain : Chain) (lambda : LambdaFunction)
    : M Chain :=
  fnStatus <- registerCheck (functionName lambda) ;;
  fnChoice <- registerChoice lambda ;;
  chain1 <- lift (Chain_next chain fnStatus) ;;
  lift (Chain_next chain1 fnChoice).

Definition processRegistry (chain : Chain)
    (fnRegistry : JsMap.t ILambdaRegistery) : M Chain :=
  forEach
    (fun item localChain =>
       if repeat item then registerSingleRunFn localChain (fn item)
       else (s <- registerFn (fn item) ;; lift (Chain_next localChain s)))
    fnRegistry chain.

Definition registerStateMachine (definition : Chain) (name : string)
    (timeout : Z) : M unit :=
  fun this =>
    match Duration_minutes timeout with
    | Returned duration =>
        Returned (tt,
          set_stateMachine
            {| sm_id := name;
               sm_definition := definition;
               sm_timeout := duration |} this)
    | Thrown e => Thrown e
    end.

(** [new StepFunctionStack(scope, id, config)]. *)
Definition StepFunctionStack_new (id : string) (config : IStepFunctionProps)
    : outcome StepFunctionStack :=
  let this :=
    {| items := JsMap.empty;
       stateMachine := None;
       systemTableName := cfg_systemTableName config;
       tenant := cfg_tenant config;
       chain := None;
       chainLink := None |} in
  let initialPass := Pass ("Step One For:" ++ id) in
  match processRegistry (Chain_start initialPass) (fnRegistry config) this with
  | Returned (registrySteps, this') =>
      Returned (set_chainLink registrySteps this')
  | Thrown e => Thrown e
  end.

(** ** What one registry entry adds to the chain *)

Definition invokeOf (lambda : LambdaFunction) : IChainable :=
  LambdaInvoke ("Invoke " ++ functionName lambda) lambda "$.Payload".

Definition checkOf (this : StepFunctionStack) (lambdaName : string)
    : IChainable :=
  DynamoGetItem ("Check " ++ lambdaName ++ " Status") (systemTableName this)
    [("id", DynamoAttributeValue_fromString lambdaName);
     ("tenant", DynamoAttributeValue_fromString (tenant this))]
    "$.dynamodbResult".

Definition choiceOf (lambda : LambdaFunction) : IChainable :=
  ChoiceState
    (mkChoice ("Is " ++ functionName lambda ++ " Successful?")
       [(Condition_stringEquals "$.dynamodbResult.Item.payload.S" "true",
         Pass ("Skip " ++ functionName lambda))]
       (Some (invokeOf lambda))).

Definition emitted (this : StepFunctionStack) (item : ILambdaRegistery)
    : list IChainable :=
  if repeat item
  then [checkOf this (functionName (fn item)); choiceOf (fn item)]
  else [invokeOf (fn item)].

(** The registries whose entries can be chained one after the other: no
    entry with [repeat] set has an entry after it. *)
Fixpoint buildable (l : list ILambdaRegistery) : bool :=
  match l with
  | [] => true
  | item :: l' =>
      match l' with
      | [] => true
      | _ :: _ => negb (repeat item) && buildable l'
      end
  end.

(** Two stacks that differ at most in [items]: the builder methods change
    nothing else. *)
Definition same_config (this this' : StepFunctionStack) : Prop :=
  systemTableName this' = systemTableName this /\
  tenant this' = tenant this /\
  stateMachine this' = stateMachine this /\
  chain this' = chain this /\
  chainLink this' = chainLink this.

(** ** Reading a plan back: segments and invoke steps *)





Definition is_check (s : IChainable) : bool :=
  match s with DynamoGetItem _ _ _ _ => true | _ => false end.

Definition is_invoke (s : IChainable) : bool :=
  match s with LambdaInvoke _ _ _ => true | _ => false end.

Definition is_invoke_of (name : string) (s : IChainable) : bool :=
  match s with
  | LambdaInvoke _ f _ => String.eqb (functionName f) name
  | _ => false
  end.

(** The states a branch can go to, in order: the [when] targets, then the
    default. *)
Definition choice_targets (c : Choice) : list IChainable :=
  match c with
  | mkChoice _ choices default =>
      map snd choices ++ match default with Some d => [d] | None => [] end
  end.

(** The states of a plan, those a branch leads to included (one level, which
    is as deep as the builder nests). *)
Definition plan_states (plan : list IChainable) : list IChainable :=
  flat_map
    (fun s => match s with
              | ChoiceState c => s :: choice_targets c
              | _ => [s]
              end) plan.

(** The compound key a state check reads. *)
Definition check_key (s : IChainable) : option (string * string) :=
  match s with
  | DynamoGetItem _ _
      [(k1, DynamoAttributeValue_fromString name);
       (k2, DynamoAttributeValue_fromString tnt)] _ =>
      if String.eqb k1 "id" && String.eqb k2 "tenant"
      then Some (name, tnt) else None
  | _ => None
  end.

(** ** Running a plan

    The execution engine and the state store are external to the
    repository; the definitions of this part follow the contracts of the
    specification and, where it leaves the engine open, the Amazon States
    Language. *)

(** Modelled from the spec: the data that flows between steps and the
    items of the store are JSON; the values the plan looks into are strings
    and objects. *)
Inductive json : Type :=
| JNull
| JString (s : string)
| JObject (fields : JsMap.t json).

Definition obj : Type := JsMap.t json.

(** The pieces of [s] between occurrences of [sep]. *)
Fixpoint split_on (sep : ascii) (s : string) : list string :=
  match s with
  | EmptyString => [EmptyString]
  | String c s' =>
      if Ascii.eqb c sep then EmptyString :: split_on sep s'
      else match split_on sep s' with
           | [] => [String c EmptyString]
           | w :: ws => String c w :: ws
           end
  end.

(** Modelled from the spec: a field of a step's result is named by a
    reference path [$.a.b.c] (section 6); a path is read as its list of
    field names. *)
Definition parse_path (p : string) : option (list string) :=
  match split_on "."%char p with
  | "$" :: keys => Some keys
  | _ => None
  end.

(** The value at a path, when every field on the way is there. *)
Fixpoint json_path (p : list string) (j : json) : option json :=
  match p with
  | [] => Some j
  | k :: p' =>
      match j with
      | JObject o =>
          match JsMap.get k o with
          | Some j' => json_path p' j'
          | None => None
          end
      | _ => None
      end
  end.

(** [j] with [v] put at a path; objects missing on the way are created. *)
Fixpoint json_set_path (p : list string) (v : json) (j : json)
    : option json :=
  match p with
  | [] => Some v
  | k :: p' =>
      match j with
      | JObject o =>
          let sub := match JsMap.get k o with
                     | Some j' => j'
                     | None => JObject []
                     end in
          match json_set_path p' v sub with
          | Some s => Some (JObject (JsMap.set k s o))
          | None => None
          end
      | _ => None
      end
  end.

(** Modelled from the spec: the key-value state store (section 6), addressed
    by the compound key (work-unit name, tenant); it returns an item or
    nothing.  The item is the row of the system table ([id], [tenant],
    [payload]) in the attribute-value form the check step receives. *)
Definition StateStore : Type := string -> string -> option json.

(** Modelled from the spec: the State Record's payload is the success
    sentinel (sections 3 and 4.1); the item's string-valued [payload]
    field is ["true"]. *)
Definition record_success (item : option json) : bool :=
  match item with
  | Some j =>
      match json_path ["payload"; "S"] j with
      | Some (JString s) => String.eqb s "true"
      | _ => false
      end
  | None => false
  end.

(** Modelled from the spec: a string-equality branch condition on a field
    of the previous step's result (section 6).  The engine is Amazon's:
    in the Amazon States Language a condition whose variable path selects
    nothing fails the execution ([States.Runtime]); a value that is not a
    string is no match. *)
Definition eval_condition (c : Condition) (d : obj) : outcome bool :=
  match c with
  | Condition_stringEquals variable value =>
      match parse_path variable with
      | Some p =>
          match json_path p (JObject d) with
          | Some (JString s) => Returned (String.eqb s value)
          | Some _ => Returned false
          | None => Thrown "States.Runtime"
          end
      | None => Thrown "States.Runtime"
      end
  end.

(** The string stored under attribute [k] of a key. *)
Definition attr_string (k : string)
    (key : list (string * DynamoAttributeValue)) : option string :=
  match JsMap.get k key with
  | Some (DynamoAttributeValue_fromString s) => Some s
  | None => None
  end.

(** Modelled from the spec: the conditional-read step (section 6); the
    result holds the item under [Item] when the store has one, and has no
    [Item] otherwise. *)
Definition getItem (st : StateStore)
    (key : list (string * DynamoAttributeValue)) : outcome json :=
  match attr_string "id" key, attr_string "tenant" key with
  | Some name, Some tnt =>
      Returned (JObject match st name tnt with
                        | Some item => [("Item", item)]
                        | None => []
                        end)
  | _, _ => Thrown "ValidationException"
  end.

(** Modelled from the spec: a step stores its result in the data it passes
    on, at its result path. *)
Definition put_result (resultPath : string) (result : json) (d : obj)
    : outcome obj :=
  match parse_path resultPath with
  | Some p =>
      match json_set_path p result (JObject d) with
      | Some (JObject d') => Returned d'
      | _ => Thrown "States.ResultPathMatchFailure"
      end
  | None => Thrown "States.Runtime"
  end.

(** Modelled from the spec: a step passes on the part of its result that
    its output path selects; the data between steps is an object. *)
Definition select_output (outputPath : string) (result : json)
    : outcome obj :=
  match parse_path outputPath with
  | Some p =>
      match json_path p result with
      | Some (JObject d') => Returned d'
      | _ => Thrown "States.Runtime"
      end
  | None => Thrown "States.Runtime"
  end.

Inductive run_status : Type :=
| Succeeded
| Failed (error : string).

(** What one run has done: the data it ends with, the store it leaves, the
    states it entered, each with the data it passed on (the data it had
    received, for a state that failed), and whether it failed. *)
Record execution : Type := {
  data : obj;
  store : StateStore;
  trace : list (IChainable * obj);
  status : run_status
}.

(** How often a run has invoked the function called [name]. *)
Definition invocations (name : string) (tr : list (IChainable * obj)) : nat :=
  length (filter (fun ev => is_invoke_of name (fst ev)) tr).

(** The states a run has entered. *)
Definition states_entered (e : execution) : list IChainable :=
  map fst (trace e).

(** The condition of the branch [registerChoice] builds. *)
Definition successCondition : Condition :=
  Condition_stringEquals "$.dynamodbResult.Item.payload.S" "true".

(** The skip state of the branch [registerChoice] builds. *)
Definition skipOf (lambda : LambdaFunction) : IChainable :=
  Pass ("Skip " ++ functionName lambda).

(** The data a state check of [checkOf] passes on: what it received, with
    the result of the read under [dynamodbResult]. *)
Definition after_check (this : StepFunctionStack) (lambdaName : string)
    (d : obj) (st : StateStore) : obj :=
  JsMap.set "dynamodbResult"
    (JObject match st lambdaName (tenant this) with
             | Some item => [("Item", item)]
             | None => []
             end) d.

Section Engine.

(** Modelled from the spec: a work unit's own execution (section 3); it
    returns a payload and may write state records.  Failures of an
    invocation belong to the engine (section 7) and are not modelled. *)
Variable lambdaRun : LambdaFunction -> obj -> StateStore -> obj * StateStore.

(** Modelled from the spec: the execution engine's steps (section 6:
    invoke, conditional read, branch, no-op).  A branch takes the first
    [when] whose condition holds, else its default; a step that fails ends
    the run. *)
Fixpoint run_state (s : IChainable) (d : obj) (st : StateStore)
    {struct s} : execution :=
  match s with
  | Pass _ =>
      {| data := d; store := st; trace := [(s, d)]; status := Succeeded |}
  | LambdaInvoke _ f outputPath =>
      let (payload, st') := lambdaRun f d st in
      match select_output outputPath
              (JObject [("Payload", JObject payload)]) with
      | Returned d' =>
          {| data := d'; store := st'; trace := [(s, d')];
             status := Succeeded |}
      | Thrown e =>
          {| data := d; store := st'; trace := [(s, d)];
             status := Failed e |}
      end
  | DynamoGetItem _ _ key resultPath =>
      match getItem st key with
      | Returned result =>
          match put_result resultPath result d with
          | Returned d' =>
              {| data := d'; store := st; trace := [(s, d')];
                 status := Succeeded |}
          | Thrown e =>
              {| data := d; store := st; trace := [(s, d)];
                 status := Failed e |}
          end
      | Thrown e =>
          {| data := d; store := st; trace := [(s, d)]; status := Failed e |}
      end
  | ChoiceState (mkChoice _ choices default) =>
      let enter (e : execution) :=
        {| data := data e; store := store e;
           trace := (s, d) :: trace e; status := status e |} in
      let fail (e : string) :=
        {| data := d; store := st; trace := [(s, d)]; status := Failed e |} in
      (fix pick (l : list (Condition * IChainable)) : execution :=
         match l with
         | [] =>
             match default with
             | Some next => enter (run_state next d st)
             | None => fail "States.NoChoiceMatched"
             end
         | (cond, next) :: l' =>
             match eval_condition cond d with
             | Returned true => enter (run_state next d st)
             | Returned false => pick l'
             | Thrown e => fail e
             end
         end) choices
  end.

(** Modelled from the spec: the engine chains steps sequentially
    (sections 5 and 6), up to the first step that fails. *)
Fixpoint run_chain (plan : list IChainable) (d : obj) (st : StateStore)
    : execution :=
  match plan with
  | [] => {| data := d; store := st; trace := []; status := Succeeded |}
  | s :: plan' =>
      let e1 := run_state s d st in
      match status e1 with
      | Succeeded =>
          let e2 := run_chain plan' (data e1) (store e1) in
          {| data := data e2; store := store e2;
             trace := trace e1 ++ trace e2; status := status e2 |}
      | Failed _ => e1
      end
  end.

End Engine.

(** ** The stack of the test suite *)

Definition mockLambda : LambdaFunction := {| functionName := "MockLambda" |}.

Definition mockTable : ITable := {| tableName := "MockTable" |}.

Definition mockFnRegistry : JsMap.t ILambdaRegistery :=
  JsMap.set "TestLambda" {| fn := mockLambda; repeat := false |} JsMap.empty.

Definition mockProps : IStepFunctionProps :=
  {| cfg_systemTableName := mockTable;
     cfg_tenant := "test-tenant";
     fnRegistry := mockFnRegistry |}.

(** The same registry with the entry's [repeat] flag set. *)
Definition repeatProps : IStepFunctionProps :=
  {| cfg_systemTableName := mockTable;
     cfg_tenant := "test-tenant";
     fnRegistry :=
       JsMap.set "TestLambda" {| fn := mockLambda; repeat := true |}
         JsMap.empty |}.

(** A stack as the constructor leaves it before the registry is processed. *)
Definition blankStack (table : ITable) (tnt : string) : StepFunctionStack :=
  {| items := JsMap.empty;
     stateMachine := None;
     systemTableName := table;
     tenant := tnt;
     chain := None;
     chainLink := None |}.

(** ** The scenario of the specification: A direct, B guarded *)

Definition lambdaA : LambdaFunction := {| functionName := "A" |}.

Definition lambdaB : LambdaFunction := {| functionName := "B" |}.

Definition entryB : ILambdaRegistery := {| fn := lambdaB; repeat := true |}.

(** A function whose entry is replaced under its key. *)
Definition lambdaOld : LambdaFunction := {| functionName := "Old" |}.

Definition scenarioProps : IStepFunctionProps :=
  {| cfg_systemTableName := mockTable;
     cfg_tenant := "test-tenant";
     fnRegistry :=
       JsMap.set "B" entryB
         (JsMap.set "A" {| fn := lambdaA; repeat := false |} JsMap.empty) |}.

(** A row of the system table with the given payload. *)
Definition recordOf (name tnt payload : string) : json :=
  JObject [("id", JObject [("S", JString name)]);
           ("tenant", JObject [("S", JString tnt)]);
           ("payload", JObject [("S", JString payload)])].

Definition emptyStore : StateStore := fun _ _ => None.

Definition storeWith (name tnt payload : string) : StateStore :=
  fun name' tnt' =>
    if String.eqb name' name && String.eqb tnt' tnt
    then Some (recordOf name tnt payload) else None.


(** ** The bookkeeping map [items] *)

Definition is_pass (s : IChainable) : bool :=
  match s with Pass _ => true | _ => false end.

(** The calls of [this.items.set] that [processRegistry] makes for one
    registry entry, in the order it makes them. *)
Definition item_writes (this : StepFunctionStack) (item : ILambdaRegistery)
    : list (string * IChainable) :=
  let name := functionName (fn item) in
  if repeat item
  then [(("check" ++ name)%string, checkOf this name);
        (name, invokeOf (fn item));
        (("choose" ++ name)%string, choiceOf (fn item))]
  else [(name, invokeOf (fn item))].

(** A sequence of [set] calls on a map, first to last. *)
Definition set_all {V : Type} (writes : list (string * V)) (m : JsMap.t V)
    : JsMap.t V :=
  fold_left (fun m kv => JsMap.set (fst kv) (snd kv) m) writes m.

(** ** The data package: the system table

    [packages/data/src/core.model.ts]; the schema builder's calls are kept
    as the data they are given. *)

Inductive FieldType : Type := a_id | a_string | a_json.

Record ModelField : Type := { field_type : FieldType; field_required : bool }.

Definition a_field (t : FieldType) : ModelField :=
  {| field_type := t; field_required := false |}.

Definition required (f : ModelField) : ModelField :=
  {| field_type := field_type f; field_required := true |}.

Inductive AuthRule : Type := allow_group (group : string).

Record ModelType : Type := {
  model_fields : JsMap.t ModelField;
  model_identifier : option (list string);
  model_authorization : list AuthRule
}.

Definition a_model (fields : JsMap.t ModelField) : ModelType :=
  {| model_fields := fields;
     model_identifier := None;
     model_authorization := [] |}.

Definition identifier (m : ModelType) (keys : list string) : ModelType :=
  {| model_fields := model_fields m;
     model_identifier := Some keys;
     model_authorization := model_authorization m |}.

Definition authorization (m : ModelType) (rules : list AuthRule) : ModelType :=
  {| model_fields := model_fields m;
     model_identifier := model_identifier m;
     model_authorization := rules |}.

Definition SystemTable : ModelType :=
  authorization
    (identifier
       (a_model [("id", required (a_field a_id));
                 ("tenant", required (a_field a_string));
                 ("payload", a_field a_json)])
       ["id"; "tenant"])
    [allow_group "ADMINS"].

(** ** The function package: the configuration handler

    [function-config-auth/handler.ts] and the [env] object of
    [resource.ts].  The Cognito client is the caller's: [send] is what
    [cognitoClient.send] does with a command.  A thrown value is kept as the
    text its [toString] gives; the logger's output is the list of entries
    written so far. *)

Record Env : Type := {
  USER_POOL_ID : string;
  USER_POOL_CLIENT_ID : string;
  IDENTITY_POOL_ID : string;
  ROLE_ARN : string;
  ADMIN_ROLE_ARN : string;
  DEPLOYED_REGION : string
}.

Definition env : Env :=
  {| USER_POOL_ID := "";
     USER_POOL_CLIENT_ID := "";
     IDENTITY_POOL_ID := "";
     ROLE_ARN := "";
     ADMIN_ROLE_ARN := "";
     DEPLOYED_REGION := "" |}.

Record GetIdentityPoolRolesCommand : Type := { IdentityPoolId : string }.

(** The response's [Roles] is optional, and so is each role in it. *)
Record GetIdentityPoolRolesResponse : Type := {
  Roles : option (JsMap.t string)
}.

Inductive LogEntry : Type :=
| logger_info (message : string)
| logger_error (message : string).

(** [new Error(message).toString()]. *)
Definition Error_toString (message : string) : string :=
  "Error: " ++ message.

(** [!value] for an optional string: true for [undefined] and for the empty
    string. *)
Definition falsy (value : option string) : bool :=
  match value with
  | None => true
  | Some s => String.eqb s ""
  end.

(** The handler: the body of the [try], then the [catch], which logs and
    throws again what it caught. *)
Definition handler
    (send : GetIdentityPoolRolesCommand -> outcome GetIdentityPoolRolesResponse)
    (env : Env) (log : list LogEntry) : outcome unit * list LogEntry :=
  let identityPoolId := IDENTITY_POOL_ID env in
  let attempt :=
    let getRolesCommand := {| IdentityPoolId := identityPoolId |} in
    match send getRolesCommand with
    | Returned identityPoolData =>
        let masterUserArn :=
          match Roles identityPoolData with
          | Some roles => JsMap.get "authenticated" roles
          | None => None
          end in
        if falsy masterUserArn
        then (Thrown (Error_toString "Authenticated role ARN not found"), log)
        else (Returned tt, log ++ [logger_info "Domain updated successfully"])
    | Thrown e => (Thrown e, log)
    end in
  match attempt with
  | (Returned r, log') => (Returned r, log')
  | (Thrown error, log') =>
      (Thrown error,
       log' ++ [logger_error ("Failed to update domain: " ++ error)])
  end.

(** * Properties of the builder *)

(** ** Maps and strings *)

Lemma JsMap_get_set_same {V : Type} (k : string) (v : V) (m : JsMap.t V) :
  JsMap.get k (JsMap.set k v m) = Some v.
Proof.
  induction m as [|[k' v'] m IH]; cbn.
  - now rewrite String.eqb_refl.
  - destruct (String.eqb k k') eqn:E; cbn.
    + now rewrite String.eqb_refl.
    + now rewrite E.
Qed.

Lemma JsMap_get_set_other {V : Type} (k k' : string) (v : V) (m : JsMap.t V) :
  k <> k' -> JsMap.get k (JsMap.set k' v m) = JsMap.get k m.
Proof.
  intros Hne. apply String.eqb_neq in Hne.
  induction m as [|[k0 v0] m IH]; cbn.
  - now rewrite Hne.
  - destruct (String.eqb k' k0) eqn:E; cbn.
    + apply String.eqb_eq in E. subst k0. now rewrite Hne.
    + destruct (String.eqb k k0); [reflexivity|exact IH].
Qed.

(** A key that is not yet in the map is inserted last. *)
Lemma JsMap_set_fresh {V : Type} (k : string) (v : V) (m : JsMap.t V) :
  JsMap.get k m = None -> JsMap.set k v m = m ++ [(k, v)].
Proof.
  induction m as [|[k' v'] m IH]; cbn; [reflexivity|].
  destruct (String.eqb k k'); [discriminate|].
  intros H. now rewrite IH.
Qed.

(** A key that is in the map keeps its place. *)
Lemma JsMap_set_present {V : Type} (k : string) (old v : V)
    (m1 m2 : JsMap.t V) :
  JsMap.get k m1 = None ->
  JsMap.set k v (m1 ++ (k, old) :: m2) = m1 ++ (k, v) :: m2.
Proof.
  induction m1 as [|[k' v'] m1 IH]; cbn.
  - now rewrite String.eqb_refl.
  - destruct (String.eqb k k'); [discriminate|].
    intros H. now rewrite IH.
Qed.

Lemma set_all_app {V : Type} (a b : list (string * V)) (m : JsMap.t V) :
  set_all (a ++ b) m = set_all b (set_all a m).
Proof. apply fold_left_app. Qed.

(** What a lookup finds after a sequence of [set] calls was put there by one
    of them, or was there before. *)
Lemma get_set_all_in {V : Type} (k : string) (v : V) (ws : list (string * V)) :
  forall m,
    JsMap.get k (set_all ws m) = Some v ->
    In (k, v) ws \/ JsMap.get k m = Some v.
Proof.
  induction ws as [|[k' v'] ws IH]; intros m H; [now right|].
  cbn [set_all fold_left fst snd] in H.
  destruct (IH _ H) as [Hin|Hget]; [left; now right|].
  destruct (String.eqb_spec k k') as [->|Hne].
  - rewrite JsMap_get_set_same in Hget. injection Hget as ->.
    left; now left.
  - rewrite JsMap_get_set_other in Hget by assumption. now right.
Qed.

(** When every [set] call on key [k] stores the same value [v], and one was
    made or [v] was there before, a lookup of [k] finds [v]. *)
Lemma get_set_all_agree {V : Type} (k : string) (v : V)
    (ws : list (string * V)) :
  forall m,
    (forall v', In (k, v') ws -> v' = v) ->
    In (k, v) ws \/ JsMap.get k m = Some v ->
    JsMap.get k (set_all ws m) = Some v.
Proof.
  induction ws as [|[k' v'] ws IH]; intros m Hsame Hsrc.
  - destruct Hsrc as [[]|Hget]. exact Hget.
  - cbn [set_all fold_left fst snd]. apply IH.
    + intros v0 Hin. apply Hsame. now right.
    + destruct (String.eqb_spec k k') as [->|Hne].
      * right. rewrite JsMap_get_set_same. f_equal.
        apply Hsame. now left.
      * destruct Hsrc as [[Heq|Hin]|Hget].
        -- injection Heq as -> _. contradiction.
        -- now left.
        -- right. now rewrite JsMap_get_set_other.
Qed.

Lemma list_ascii_of_string_append (a b : string) :
  list_ascii_of_string (a ++ b) =
  list_ascii_of_string a ++ list_ascii_of_string b.
Proof. induction a as [|c a IH]; cbn; [reflexivity|now rewrite IH]. Qed.

Lemma list_ascii_of_string_inj (a b : string) :
  list_ascii_of_string a = list_ascii_of_string b -> a = b.
Proof.
  intros H. rewrite <- (string_of_list_ascii_of_string a),
    <- (string_of_list_ascii_of_string b). now rewrite H.
Qed.

Lemma append_inv_tail (a b s : string) :
  (a ++ s)%string = (b ++ s)%string -> a = b.
Proof.
  intros H. apply list_ascii_of_string_inj.
  apply (f_equal list_ascii_of_string) in H.
  rewrite !list_ascii_of_string_append in H.
  now apply app_inv_tail in H.
Qed.

Lemma append_not_self (p n : string) :
  p <> ""%string -> (p ++ n)%string <> n.
Proof.
  intros Hp H. apply Hp. apply (append_inv_tail p "" n). exact H.
Qed.

(** The three keys [registerSingleRunFn] writes are different keys. *)
Lemma guard_keys_distinct (n : string) :
  ("check" ++ n)%string <> n /\
  ("choose" ++ n)%string <> n /\
  ("check" ++ n)%string <> ("choose" ++ n)%string.
Proof.
  repeat split.
  - apply append_not_self. discriminate.
  - apply append_not_self. discriminate.
  - cbn. discriminate.
Qed.

(** ** Chains that can be continued *)

Lemma lastAdded_app (c : Chain) (s : IChainable) :
  lastAdded (c ++ [s]) = Some s.
Proof. unfold lastAdded. rewrite map_app. apply last_last. Qed.

Lemma can_chain_after (c : Chain) (s : IChainable) :
  can_chain (c ++ [s]) = match endStates s with [] => false | _ => true end.
Proof. unfold can_chain. now rewrite lastAdded_app. Qed.

Lemma Chain_next_open (c : Chain) (s : IChainable) :
  can_chain c = true -> Chain_next c s = Returned (c ++ [s]).
Proof.
  unfold can_chain, Chain_next.
  destruct (lastAdded c) as [l|]; [|discriminate].
  destruct (endStates l); [discriminate|reflexivity].
Qed.

Lemma Chain_next_closed (c : Chain) (s : IChainable) :
  can_chain c = false -> exists e, Chain_next c s = Thrown e.
Proof.
  unfold can_chain, Chain_next.
  destruct (lastAdded c) as [l|]; [|now eexists].
  destruct (endStates l); [now eexists|discriminate].
Qed.

(** ** What the builder methods return *)

Lemma registerFn_returns lambda this :
  registerFn lambda this =
  Returned (invokeOf lambda,
            set_items (JsMap.set (functionName lambda) (invokeOf lambda)) this).
Proof. reflexivity. Qed.

Lemma registerCheck_returns name this :
  registerCheck name this =
  Returned (checkOf this name,
            set_items (JsMap.set ("check" ++ name) (checkOf this name)) this).
Proof. reflexivity. Qed.

Lemma registerChoice_returns lambda this :
  registerChoice lambda this =
  Returned (choiceOf lambda,
            set_items (JsMap.set ("choose" ++ functionName lambda)
                         (choiceOf lambda))
              (set_items (JsMap.set (functionName lambda) (invokeOf lambda))
                 this)).
Proof. reflexivity. Qed.

(** On a chain that can be continued, [registerSingleRunFn] returns. *)
Lemma registerSingleRunFn_open c lambda this :
  can_chain c = true ->
  registerSingleRunFn c lambda this =
  Returned
    (c ++ [checkOf this (functionName lambda); choiceOf lambda],
     set_items
       (set_all (item_writes this {| fn := lambda; repeat := true |})) this).
Proof.
  intros Hopen. unfold registerSingleRunFn, bind.
  rewrite registerCheck_returns, registerChoice_returns.
  unfold lift. rewrite (Chain_next_open c _ Hopen).
  rewrite Chain_next_open by (now rewrite can_chain_after).
  now rewrite <- app_assoc.
Qed.

(** On a chain that ends in a [Choice], it throws. *)
Lemma registerSingleRunFn_closed c lambda this :
  can_chain c = false ->
  exists e, registerSingleRunFn c lambda this = Thrown e.
Proof.
  intros Hclosed. unfold registerSingleRunFn, bind.
  rewrite registerCheck_returns, registerChoice_returns.
  unfold lift.
  destruct (Chain_next_closed c (checkOf this (functionName lambda)) Hclosed)
    as (e & ->).
  now exists e.
Qed.

Lemma processRegistry_cons chain k item R this :
  processRegistry chain ((k, item) :: R) this =
  match (if repeat item then registerSingleRunFn chain (fn item)
         else (s <- registerFn (fn item) ;; lift (Chain_next chain s))) this
  with
  | Returned (chain', this') => processRegistry chain' R this'
  | Thrown e => Thrown e
  end.
Proof. reflexivity. Qed.

(** One entry, on a chain that can be continued. *)
Lemma entry_open c item this :
  can_chain c = true ->
  (if repeat item then registerSingleRunFn c (fn item)
   else (s <- registerFn (fn item) ;; lift (Chain_next c s))) this =
  Returned (c ++ emitted this item,
            set_items (set_all (item_writes this item)) this).
Proof.
  intros Hopen. unfold emitted, item_writes.
  destruct item as [f rep]. destruct rep; cbn [repeat fn].
  - now apply registerSingleRunFn_open.
  - unfold bind. rewrite registerFn_returns. unfold lift.
    now rewrite (Chain_next_open c _ Hopen).
Qed.

(** One entry, on a chain that ends in a [Choice]. *)
Lemma entry_closed c item this :
  can_chain c = false ->
  exists e,
    (if repeat item then registerSingleRunFn c (fn item)
     else (s <- registerFn (fn item) ;; lift (Chain_next c s))) this =
    Thrown e.
Proof.
  intros Hclosed. destruct (repeat item).
  - now apply registerSingleRunFn_closed.
  - unfold bind. rewrite registerFn_returns. unfold lift.
    destruct (Chain_next_closed c (invokeOf (fn item)) Hclosed) as (e & ->).
    now exists e.
Qed.

(** The chain an entry leaves can be continued unless the entry is a
    guarded one. *)
Lemma can_chain_emitted c this item :
  can_chain (c ++ emitted this item) = negb (repeat item).
Proof.
  unfold emitted. destruct (repeat item).
  - change (c ++ [checkOf this (functionName (fn item)); choiceOf (fn item)])
      with (c ++ [checkOf this (functionName (fn item))]
              ++ [choiceOf (fn item)]).
    rewrite app_assoc. now rewrite can_chain_after.
  - now rewrite can_chain_after.
Qed.

(** When [processRegistry] returns, this is what it returns. *)
Lemma processRegistry_returned R : forall c this c' this',
  processRegistry c R this = Returned (c', this') ->
  c' = c ++ flat_map (emitted this) (JsMap.values R) /\
  this' =
    set_items (set_all (flat_map (item_writes this) (JsMap.values R))) this.
Proof.
  induction R as [|[k item] R IH]; intros c this c' this' H.
  - cbn in H. injection H as <- <-. rewrite app_nil_r.
    split; [reflexivity|now destruct this].
  - rewrite processRegistry_cons in H.
    destruct (can_chain c) eqn:Hopen.
    + rewrite (entry_open c item this Hopen) in H.
      apply IH in H as (-> & ->).
      cbn [JsMap.values map snd flat_map].
      split; [now rewrite <- app_assoc|].
      unfold set_items. cbn [items]. now rewrite set_all_app.
    + destruct (entry_closed c item this Hopen) as (e & He).
      rewrite He in H. discriminate.
Qed.

(** On a chain that ends in a [Choice], a registry with an entry throws. *)
Lemma processRegistry_closed c k item R this :
  can_chain c = false ->
  exists e, processRegistry c ((k, item) :: R) this = Thrown e.
Proof.
  intros Hclosed. rewrite processRegistry_cons.
  destruct (entry_closed c item this Hclosed) as (e & ->). now exists e.
Qed.

(** [processRegistry] returns only for a registry in which no guarded entry
    has an entry after it. *)
Lemma processRegistry_returned_buildable R : forall c this c' this',
  processRegistry c R this = Returned (c', this') ->
  buildable (JsMap.values R) = true.
Proof.
  induction R as [|[k item] R IH]; intros c this c' this' H; [reflexivity|].
  rewrite processRegistry_cons in H.
  destruct (can_chain c) eqn:Hopen.
  - rewrite (entry_open c item this Hopen) in H.
    destruct R as [|[k2 item2] R]; [reflexivity|].
    cbn [JsMap.values map snd buildable].
    destruct (repeat item) eqn:Hrep; cbn [negb andb].
    + destruct (processRegistry_closed (c ++ emitted this item) k2 item2 R
                  (set_items (set_all (item_writes this item)) this))
        as (e & He).
      { rewrite can_chain_emitted. now rewrite Hrep. }
      rewrite He in H. discriminate.
    + exact (IH _ _ _ _ H).
  - destruct (entry_closed c item this Hopen) as (e & He).
    rewrite He in H. discriminate.
Qed.


(** When the constructor returns, this is the stack it returns. *)
Lemma StepFunctionStack_new_returned id config st :
  StepFunctionStack_new id config = Returned st ->
  let blank :=
    blankStack (cfg_systemTableName config) (cfg_tenant config) in
  chainLink st =
    Some (Pass ("Step One For:" ++ id)
          :: flat_map (emitted blank) (JsMap.values (fnRegistry config))) /\
  items st =
    set_all (flat_map (item_writes blank) (JsMap.values (fnRegistry config)))
      JsMap.empty /\
  tenant st = cfg_tenant config /\
  systemTableName st = cfg_systemTableName config /\
  stateMachine st = None /\
  chain st = None /\
  buildable (JsMap.values (fnRegistry config)) = true.
Proof.
  intros H blank. unfold StepFunctionStack_new in H.
  subst blank. unfold blankStack.
  destruct (processRegistry _ _ _) as [[c' this']|e] eqn:Hp;
    [|discriminate].
  injection H as <-.
  pose proof (processRegistry_returned_buildable _ _ _ _ _ Hp) as Hb.
  apply processRegistry_returned in Hp as (-> & ->).
  repeat split. exact Hb.
Qed.

(** ** Build: empty registry (C9) *)

(** C9. For an empty registry [processRegistry] returns the chain it was
    given, and leaves the stack as it was; the stack the constructor builds
    from an empty registry has a plan that is the initial pass state
    [Step One For:id] and nothing else. *)
Theorem processRegistry_empty_registry :
  forall (c : Chain) (this : StepFunctionStack) (id : string)
         (table : ITable) (tnt : string),
    processRegistry c JsMap.empty this = Returned (c, this) /\
    exists st,
      StepFunctionStack_new id
        {| cfg_systemTableName := table; cfg_tenant := tnt;
           fnRegistry := JsMap.empty |} = Returned st /\
      chainLink st = Some [Pass ("Step One For:" ++ id)].
Proof.
  intros c this id table tnt. split; [reflexivity|].
  eexists; split; reflexivity.
Qed.

(** ** EmitGuarded (C4) *)

(** C4. On a chain that can be continued (its last state is not a
    [Choice]), [registerSingleRunFn] returns the chain extended by exactly
    two states: a [DynamoGetItem] that reads the system table at the key
    (id = function name, tenant = the stack's tenant) and stores what it
    read under its result path, immediately followed by a [Choice] with two
    outcomes: one [when], which compares the [payload] string found below
    that result path with "true" and leads to the pass state [Skip name],
    and the default, which is the invoke state [registerFn] makes for the
    function. *)
Theorem registerSingleRunFn_guarded_sequence :
  forall (c : Chain) (lambda : LambdaFunction) (this : StepFunctionStack),
    can_chain c = true ->
    let name := functionName lambda in
    exists check resultPath choiceId invoke this',
      registerSingleRunFn c lambda this =
        Returned
          (c ++ [check;
                 ChoiceState
                   (mkChoice choiceId
                      [(Condition_stringEquals
                          (resultPath ++ ".Item.payload.S") "true",
                        Pass ("Skip " ++ name))]
                      (Some invoke))],
           this') /\
      check =
        DynamoGetItem ("Check " ++ name ++ " Status") (systemTableName this)
          [("id", DynamoAttributeValue_fromString name);
           ("tenant", DynamoAttributeValue_fromString (tenant this))]
          resultPath /\
      check_key check = Some (name, tenant this) /\
      invoke = LambdaInvoke ("Invoke " ++ name) lambda "$.Payload" /\
      (forall this0, exists this1,
         registerFn lambda this0 = Returned (invoke, this1)) /\
      same_config this this'.
Proof.
  intros c lambda this Hopen name.
  exists (checkOf this name), "$.dynamodbResult",
    ("Is " ++ name ++ " Successful?")%string, (invokeOf lambda).
  eexists. split; [apply (registerSingleRunFn_open c lambda this Hopen)|].
  repeat split.
  intros this0. eexists. apply registerFn_returns.
Qed.

Lemma registerSingleRunFn_guarded_sequence_witness :
  can_chain [Pass "Step One For:TestStack"] = true /\
  exists check resultPath choiceId invoke this',
    registerSingleRunFn [Pass "Step One For:TestStack"] lambdaB
      (blankStack mockTable "test-tenant") =
      Returned
        ([Pass "Step One For:TestStack"]
           ++ [check;
               ChoiceState
                 (mkChoice choiceId
                    [(Condition_stringEquals
                        (resultPath ++ ".Item.payload.S") "true",
                      Pass "Skip B")]
                    (Some invoke))],
         this') /\
    check =
      DynamoGetItem "Check B Status" mockTable
        [("id", DynamoAttributeValue_fromString "B");
         ("tenant", DynamoAttributeValue_fromString "test-tenant")]
        resultPath /\
    check_key check = Some ("B", "test-tenant") /\
    invoke = LambdaInvoke "Invoke B" lambdaB "$.Payload" /\
    (forall this0, exists this1,
       registerFn lambdaB this0 = Returned (invoke, this1)) /\
    same_config (blankStack mockTable "test-tenant") this'.
Proof.
  split; [reflexivity|].
  apply (registerSingleRunFn_guarded_sequence
           [Pass "Step One For:TestStack"] lambdaB
           (blankStack mockTable "test-tenant")).
  reflexivity.
Defined.

(** ** Build: which entries are guarded (C1) *)

(** C1. [processRegistry] selects the guarded sequence by [item.repeat]:
    the stack built from the registry whose one entry has [repeat: true]
    has the plan (initial pass, state check, branch), and the stack of the
    test suite, whose entry has [repeat: false], has the plan (initial pass,
    invoke) with no state check.  An entry flagged to repeat is the one that
    gets the run-once guard. *)
Theorem processRegistry_guards_on_repeat_flag :
  (exists st,
     StepFunctionStack_new "TestStack" repeatProps = Returned st /\
     chainLink st =
       Some [Pass "Step One For:TestStack";
             DynamoGetItem "Check MockLambda Status" mockTable
               [("id", DynamoAttributeValue_fromString "MockLambda");
                ("tenant", DynamoAttributeValue_fromString "test-tenant")]
               "$.dynamodbResult";
             ChoiceState
               (mkChoice "Is MockLambda Successful?"
                  [(Condition_stringEquals "$.dynamodbResult.Item.payload.S"
                      "true",
                    Pass "Skip MockLambda")]
                  (Some (LambdaInvoke "Invoke MockLambda" mockLambda
                           "$.Payload")))]) /\
  (exists st,
     StepFunctionStack_new "TestStack" mockProps = Returned st /\
     chainLink st =
       Some [Pass "Step One For:TestStack";
             LambdaInvoke "Invoke MockLambda" mockLambda "$.Payload"] /\
     existsb is_check
       (match chainLink st with Some p => plan_states p | None => [] end)
     = false).
Proof.
  split; eexists; repeat split; reflexivity.
Qed.

(** ** Finalize (C2, C10) *)

(** C2, as stated, fails at timeout 0: [registerStateMachine] returns, and
    the state machine it has created carries a timeout of 0 minutes. *)
Theorem registerStateMachine_accepts_zero_timeout :
  (0 <= 0)%Z /\
  registerStateMachine [Pass "Step One For:TestStack"] "TestStateMachine" 0
    (blankStack mockTable "test-tenant") =
  Returned
    (tt,
     {| items := JsMap.empty;
        stateMachine :=
          Some {| sm_id := "TestStateMachine";
                  sm_definition := [Pass "Step One For:TestStack"];
                  sm_timeout := {| dur_amount := 0; dur_unit := Minutes |} |};
        systemTableName := mockTable;
        tenant := "test-tenant";
        chain := None;
        chainLink := None |}).
Proof. split; [lia|reflexivity]. Qed.

(** C2, amended. For every timeout [t < 0], [registerStateMachine] fails:
    [Duration.minutes(t)] throws, the error reaches the caller, and this
    happens before the state machine is created, so nothing is registered
    and nothing is clamped.  (A timeout of 0 is accepted, as shown
    above.) *)
Theorem registerStateMachine_rejects_negative_timeout :
  forall (def : Chain) (name : string) (t : Z) (this : StepFunctionStack),
    (t < 0)%Z ->
    exists e,
      Duration_minutes t = Thrown e /\
      registerStateMachine def name t this = Thrown e.
Proof.
  intros def name t this Ht.
  unfold registerStateMachine, Duration_minutes.
  apply Z.ltb_lt in Ht. rewrite Ht. eexists. split; reflexivity.
Qed.

Lemma registerStateMachine_rejects_negative_timeout_witness :
  (-1 < 0)%Z /\
  exists e,
    Duration_minutes (-1) = Thrown e /\
    registerStateMachine [Pass "Step One For:TestStack"] "TestStateMachine"
      (-1) (blankStack mockTable "test-tenant") = Thrown e.
Proof.
  split; [lia|].
  apply (registerStateMachine_rejects_negative_timeout
           [Pass "Step One For:TestStack"] "TestStateMachine" (-1)
           (blankStack mockTable "test-tenant")).
  lia.
Defined.

(** C10. The timeout is taken in minutes: for every positive [t],
    [registerStateMachine] returns, and the state machine it has stored on
    the stack has a timeout of [t] minutes, which is [t * 60] seconds. *)
Theorem registerStateMachine_timeout_in_minutes :
  forall (def : Chain) (name : string) (t : Z) (this : StepFunctionStack),
    (0 < t)%Z ->
    exists this' sm,
      registerStateMachine def name t this = Returned (tt, this') /\
      stateMachine this' = Some sm /\
      sm_timeout sm = {| dur_amount := t; dur_unit := Minutes |} /\
      Duration_toSeconds (sm_timeout sm) = (t * 60)%Z.
Proof.
  intros def name t this Ht.
  unfold registerStateMachine, Duration_minutes.
  assert (Hneg : (t <? 0)%Z = false) by (apply Z.ltb_ge; lia).
  rewrite Hneg. do 2 eexists.
  split; [reflexivity|]. repeat split.
Qed.

(** The test suite's state machine: 5 minutes, 300 seconds. *)
Lemma registerStateMachine_timeout_in_minutes_witness :
  (0 < 5)%Z /\
  exists this' sm,
    registerStateMachine [Pass "Step One For:TestStack"] "TestStateMachine" 5
      (blankStack mockTable "test-tenant") = Returned (tt, this') /\
    stateMachine this' = Some sm /\
    sm_timeout sm = {| dur_amount := 5; dur_unit := Minutes |} /\
    Duration_toSeconds (sm_timeout sm) = 300%Z.
Proof.
  split; [lia|].
  apply (registerStateMachine_timeout_in_minutes
           [Pass "Step One For:TestStack"] "TestStateMachine" 5
           (blankStack mockTable "test-tenant")).
  lia.
Defined.

(** ** Build: one segment per entry, in the registry's order (C3) *)





(** * Properties of the plans when they run *)

Lemma invocations_cons name s d tr :
  invocations name ((s, d) :: tr) =
  (if is_invoke_of name s then 1 else 0) + invocations name tr.
Proof.
  unfold invocations. cbn [filter fst].
  destruct (is_invoke_of name s); reflexivity.
Qed.



(** What the branch condition finds in the data a state check passes on:
    nothing when the store has no record, or when the record has no
    string-valued payload. *)
Lemma eval_condition_after_check this name d st :
  eval_condition successCondition (after_check this name d st) =
  match st name (tenant this) with
  | Some item =>
      match json_path ["payload"; "S"] item with
      | Some (JString s) => Returned (String.eqb s "true")
      | Some _ => Returned false
      | None => Thrown "States.Runtime"
      end
  | None => Thrown "States.Runtime"
  end.
Proof.
  unfold eval_condition, successCondition, after_check.
  change (parse_path "$.dynamodbResult.Item.payload.S")
    with (Some ["dynamodbResult"; "Item"; "payload"; "S"]).
  cbn [json_path]. rewrite JsMap_get_set_same.
  destruct (st name (tenant this)) as [item|]; reflexivity.
Qed.

Section RunFacts.

Variable lambdaRun : LambdaFunction -> obj -> StateStore -> obj * StateStore.

Lemma run_state_invokeOf f d st :
  run_state lambdaRun (invokeOf f) d st =
  {| data := fst (lambdaRun f d st);
     store := snd (lambdaRun f d st);
     trace := [(invokeOf f, fst (lambdaRun f d st))];
     status := Succeeded |}.
Proof.
  unfold invokeOf. cbn [run_state].
  destruct (lambdaRun f d st) as [payload st']. reflexivity.
Qed.

Lemma run_state_checkOf this name d st :
  run_state lambdaRun (checkOf this name) d st =
  {| data := after_check this name d st;
     store := st;
     trace := [(checkOf this name, after_check this name d st)];
     status := Succeeded |}.
Proof. reflexivity. Qed.

Lemma run_state_choiceOf f d st :
  run_state lambdaRun (choiceOf f) d st =
  match eval_condition successCondition d with
  | Returned true =>
      {| data := d; store := st;
         trace := [(choiceOf f, d); (skipOf f, d)];
         status := Succeeded |}
  | Returned false =>
      {| data := fst (lambdaRun f d st);
         store := snd (lambdaRun f d st);
         trace := [(choiceOf f, d); (invokeOf f, fst (lambdaRun f d st))];
         status := Succeeded |}
  | Thrown e =>
      {| data := d; store := st; trace := [(choiceOf f, d)];
         status := Failed e |}
  end.
Proof.
  unfold choiceOf. cbn [run_state]. fold successCondition.
  destruct (eval_condition successCondition d) as [[|]|e]; try reflexivity.
  fold (invokeOf f). rewrite run_state_invokeOf. reflexivity.
Qed.



End RunFacts.

(** ** Runs of a guarded segment (C5) *)

(** C5. The claim is that a guarded unit with no State Record falls through
    to its invocation and never errors.  The code tests the record with
    [Condition.stringEquals('$.dynamodbResult.Item.payload.S', 'true')]
    alone, with no test that the path is present.  For the unit [B] of the
    scenario, [registerSingleRunFn] appends the state check and the branch;
    the store has no record for [B]; the run of the two states enters the
    check and the branch and stops there, failed with [States.Runtime],
    without invoking [B].  With a record whose payload is not the sentinel
    the same two states succeed and invoke [B]: the absent record is not
    treated as that record is. *)
Theorem guarded_branch_fails_on_absent_record :
  forall (lambdaRun : LambdaFunction -> obj -> StateStore -> obj * StateStore)
         (d : obj),
    let this := blankStack mockTable "test-tenant" in
    let guarded := [checkOf this "B"; choiceOf lambdaB] in
    let absent := run_chain lambdaRun guarded d emptyStore in
    let unsuccessful :=
      run_chain lambdaRun guarded d (storeWith "B" "test-tenant" "false") in
    (exists this',
       registerSingleRunFn [Pass "Step One For:TestStack"] lambdaB this =
       Returned ([Pass "Step One For:TestStack"] ++ guarded, this')) /\
    emptyStore "B" "test-tenant" = None /\
    status absent = Failed "States.Runtime" /\
    states_entered absent = guarded /\
    invocations "B" (trace absent) = 0 /\
    status unsuccessful = Succeeded /\
    states_entered unsuccessful = guarded ++ [invokeOf lambdaB] /\
    invocations "B" (trace unsuccessful) = 1.
Proof.
  intros lambdaRun d this guarded absent unsuccessful.
  split; [eexists; reflexivity|].
  split; [reflexivity|].
  assert (Habsent :
    eval_condition successCondition (after_check this "B" d emptyStore) =
    Thrown "States.Runtime").
  { now rewrite eval_condition_after_check. }
  assert (Hfalse :
    eval_condition successCondition
      (after_check this "B" d (storeWith "B" "test-tenant" "false")) =
    Returned false).
  { now rewrite eval_condition_after_check. }
  subst absent unsuccessful guarded.
  cbn [run_chain]. rewrite !run_state_checkOf.
  cbn [status data store trace]. rewrite !run_state_choiceOf.
  rewrite Habsent, Hfalse.
  cbn [status data store trace app states_entered map fst].
  rewrite !invocations_cons.
  repeat split.
Qed.

(** ** Runs of a whole plan (C6, C7, C8) *)

(** C6. The claim is that a single-run unit's invoke step is never reached
    without its state check having run first.  In the test suite's registry
    the entry is flagged [repeat: false], "run only once" in the words of
    the field's documentation.  The constructor returns a plan for it, and
    every run of that plan, on any data and any store, succeeds having
    entered the initial pass state and then the invoke state of
    [MockLambda]: no state check is entered before the invocation, or at
    all. *)
Theorem single_run_unit_invoked_without_state_check :
  forall (lambdaRun : LambdaFunction -> obj -> StateStore -> obj * StateStore)
         (d : obj) (st : StateStore),
    exists this plan,
      StepFunctionStack_new "TestStack" mockProps = Returned this /\
      map repeat (JsMap.values (fnRegistry mockProps)) = [false] /\
      chainLink this = Some plan /\
      status (run_chain lambdaRun plan d st) = Succeeded /\
      states_entered (run_chain lambdaRun plan d st) =
        [Pass "Step One For:TestStack";
         LambdaInvoke "Invoke MockLambda" mockLambda "$.Payload"] /\
      existsb is_check (states_entered (run_chain lambdaRun plan d st)) =
        false.
Proof.
  intros lambdaRun d st.
  eexists. exists [Pass "Step One For:TestStack"; invokeOf mockLambda].
  split; [reflexivity|].
  split; [reflexivity|].
  split; [reflexivity|].
  cbn [run_chain].
  rewrite run_state_invokeOf.
  cbn [run_state status data store trace app states_entered map fst].
  repeat split.
Qed.

(** C7. The claim is that a single-run unit whose State Record holds the
    payload ["true"] is never invoked.  For the test suite's registry, whose
    entry is flagged [repeat: false], and a store that holds the record of
    [MockLambda] for the stack's tenant with payload ["true"], every run of
    the constructor's plan invokes [MockLambda] once: the record is never
    read. *)
Theorem successful_single_run_unit_invoked_again :
  forall (lambdaRun : LambdaFunction -> obj -> StateStore -> obj * StateStore)
         (d : obj),
    let st := storeWith "MockLambda" "test-tenant" "true" in
    exists this plan,
      StepFunctionStack_new "TestStack" mockProps = Returned this /\
      map repeat (JsMap.values (fnRegistry mockProps)) = [false] /\
      chainLink this = Some plan /\
      record_success (st "MockLambda" (tenant this)) = true /\
      status (run_chain lambdaRun plan d st) = Succeeded /\
      invocations "MockLambda" (trace (run_chain lambdaRun plan d st)) = 1.
Proof.
  intros lambdaRun d st.
  eexists. exists [Pass "Step One For:TestStack"; invokeOf mockLambda].
  split; [reflexivity|].
  split; [reflexivity|].
  split; [reflexivity|].
  split; [reflexivity|].
  cbn [run_chain].
  rewrite run_state_invokeOf.
  cbn [run_state status data store trace app].
  rewrite !invocations_cons.
  split; reflexivity.
Qed.



(** The scenario of the specification: the constructor returns the plan
    [Step One; Invoke A; Check B Status; Is B Successful?], the branch
    leading to [Skip B] when the payload is ["true"] and to [Invoke B]
    otherwise. *)
Example scenario_plan :
  exists this,
    StepFunctionStack_new "TestStack" scenarioProps = Returned this /\
    chainLink this =
      Some [Pass "Step One For:TestStack";
            LambdaInvoke "Invoke A" lambdaA "$.Payload";
            DynamoGetItem "Check B Status" mockTable
              [("id", DynamoAttributeValue_fromString "B");
               ("tenant", DynamoAttributeValue_fromString "test-tenant")]
              "$.dynamodbResult";
            ChoiceState
              (mkChoice "Is B Successful?"
                 [(Condition_stringEquals "$.dynamodbResult.Item.payload.S"
                     "true", Pass "Skip B")]
                 (Some (LambdaInvoke "Invoke B" lambdaB "$.Payload")))].
Proof. eexists. split; reflexivity. Qed.

(** * Further properties of the builder *)

(** ** When the builder returns *)

(** On a chain that can be continued, a registry in which no guarded entry
    has an entry after it is processed to the end. *)
Lemma processRegistry_buildable R : forall c this,
  can_chain c = true ->
  buildable (JsMap.values R) = true ->
  processRegistry c R this =
  Returned
    (c ++ flat_map (emitted this) (JsMap.values R),
     set_items (set_all (flat_map (item_writes this) (JsMap.values R))) this).
Proof.
  induction R as [|[k item] R IH]; intros c this Hopen Hb.
  - cbn. rewrite app_nil_r. now destruct this.
  - rewrite processRegistry_cons, (entry_open c item this Hopen).
    assert (Hnext : R = [] \/
              (repeat item = false /\ buildable (JsMap.values R) = true)).
    { destruct R as [|[k2 item2] R]; [now left|right].
      change (negb (repeat item)
              && buildable (JsMap.values ((k2, item2) :: R)) = true) in Hb.
      apply andb_prop in Hb as (Hrep & Hb).
      split; [now destruct (repeat item)|exact Hb]. }
    destruct Hnext as [->|(Hrep & Hb')].
    + cbn [processRegistry forEach JsMap.values map snd flat_map].
      now rewrite !app_nil_r.
    + rewrite IH;
        [| now rewrite can_chain_emitted, Hrep | exact Hb'].
      cbn [JsMap.values map snd flat_map].
      f_equal. f_equal; [now rewrite <- app_assoc|].
      unfold set_items. cbn [items]. now rewrite set_all_app.
Qed.

Lemma buildable_one_guard (l : list ILambdaRegistery) :
  buildable l = true -> length (filter repeat l) <= 1.
Proof.
  induction l as [|item l IH]; intros Hb; [cbn; lia|].
  cbn [buildable] in Hb. destruct l as [|item2 l].
  - cbn. destruct (repeat item); cbn; lia.
  - apply andb_prop in Hb as (Hrep & Hb).
    cbn [filter]. destruct (repeat item); [discriminate|].
    now apply IH.
Qed.

(** X16. A registry in which a guarded entry (flag [repeat] set) has any
    entry after it cannot be processed: [processRegistry] throws on every
    chain, and so does the constructor.  (The branch a guarded entry ends
    with has no end state the next entry could be chained to.) *)
Theorem processRegistry_throws_after_guarded_entry :
  forall (R : JsMap.t ILambdaRegistery) (c : Chain)
         (this : StepFunctionStack) (id : string)
         (config : IStepFunctionProps),
    buildable (JsMap.values R) = false ->
    fnRegistry config = R ->
    (exists e, processRegistry c R this = Thrown e) /\
    (exists e, StepFunctionStack_new id config = Thrown e).
Proof.
  intros R c this id config Hb <-. split.
  - destruct (processRegistry c (fnRegistry config) this)
      as [[c' this']|e] eqn:H; [|now exists e].
    apply processRegistry_returned_buildable in H. congruence.
  - destruct (StepFunctionStack_new id config) as [st|e] eqn:H;
      [|now exists e].
    apply StepFunctionStack_new_returned in H as (_ & _ & _ & _ & _ & _ & H).
    congruence.
Qed.

Lemma processRegistry_throws_after_guarded_entry_witness :
  (exists e,
     processRegistry [Pass "Step One For:TestStack"]
       (JsMap.set "A" {| fn := lambdaA; repeat := false |}
          (JsMap.set "B" entryB JsMap.empty))
       (blankStack mockTable "test-tenant") = Thrown e) /\
  (exists e,
     StepFunctionStack_new "TestStack"
       {| cfg_systemTableName := mockTable;
          cfg_tenant := "test-tenant";
          fnRegistry :=
            JsMap.set "A" {| fn := lambdaA; repeat := false |}
              (JsMap.set "B" entryB JsMap.empty) |} = Thrown e).
Proof.
  apply (processRegistry_throws_after_guarded_entry
           (JsMap.set "A" {| fn := lambdaA; repeat := false |}
              (JsMap.set "B" entryB JsMap.empty))
           [Pass "Step One For:TestStack"]
           (blankStack mockTable "test-tenant") "TestStack"
           {| cfg_systemTableName := mockTable;
              cfg_tenant := "test-tenant";
              fnRegistry :=
                JsMap.set "A" {| fn := lambdaA; repeat := false |}
                  (JsMap.set "B" entryB JsMap.empty) |});
    reflexivity.
Defined.

(** ** What the builder leaves on the stack *)

(** X1. When [processRegistry] returns, it has changed no field of the
    stack but [items]; a stack the constructor returns has the tenant and
    the table of its configuration, and neither a state machine nor a
    [chain]: nothing is registered until [registerStateMachine] is
    called. *)
Theorem processRegistry_changes_only_items :
  forall (c c' : Chain) (R : JsMap.t ILambdaRegistery)
         (this this' st : StepFunctionStack) (id : string)
         (config : IStepFunctionProps),
    processRegistry c R this = Returned (c', this') ->
    StepFunctionStack_new id config = Returned st ->
    (stateMachine this' = stateMachine this /\
     chain this' = chain this /\
     chainLink this' = chainLink this /\
     tenant this' = tenant this /\
     systemTableName this' = systemTableName this) /\
    (stateMachine st = None /\
     chain st = None /\
     tenant st = cfg_tenant config /\
     systemTableName st = cfg_systemTableName config).
Proof.
  intros c c' R this this' st id config Hp Hnew. split.
  - apply processRegistry_returned in Hp as (_ & ->). repeat split.
  - apply StepFunctionStack_new_returned in Hnew
      as (_ & _ & Ht & Hs & Hm & Hc & _).
    auto.
Qed.

Lemma processRegistry_changes_only_items_witness :
  exists c' this' st,
    processRegistry [Pass "Step One For:TestStack"] (fnRegistry scenarioProps)
      (blankStack mockTable "test-tenant") = Returned (c', this') /\
    StepFunctionStack_new "TestStack" scenarioProps = Returned st /\
    (stateMachine this' = None /\ chain this' = None /\
     chainLink this' = None /\ tenant this' = "test-tenant" /\
     systemTableName this' = mockTable) /\
    (stateMachine st = None /\ chain st = None /\
     tenant st = "test-tenant" /\ systemTableName st = mockTable).
Proof.
  do 3 eexists.
  split; [reflexivity|]. split; [reflexivity|].
  eapply (processRegistry_changes_only_items
            [Pass "Step One For:TestStack"] _ (fnRegistry scenarioProps)
            (blankStack mockTable "test-tenant") _ _ "TestStack"
            scenarioProps);
    reflexivity.
Defined.

(** X2. Processing a registry made of two parts is processing the first
    part and then the second, on the chain and the stack the first has
    left. *)
Theorem processRegistry_app :
  forall (R1 R2 : JsMap.t ILambdaRegistery) (c : Chain)
         (this : StepFunctionStack),
    processRegistry c (R1 ++ R2) this =
    match processRegistry c R1 this with
    | Returned (c1, this1) => processRegistry c1 R2 this1
    | Thrown e => Thrown e
    end.
Proof.
  induction R1 as [|[k item] R1 IH]; intros R2 c this; [reflexivity|].
  cbn [app]. rewrite !processRegistry_cons.
  destruct ((if repeat item
             then registerSingleRunFn c (fn item)
             else (s <- registerFn (fn item) ;; lift (Chain_next c s))) this)
    as [[c1 this1]|e]; [apply IH|reflexivity].
Qed.

Lemma filter_emitted_checks this l :
  filter is_check (flat_map (emitted this) l) =
  map (fun item => checkOf this (functionName (fn item)))
    (filter repeat l).
Proof.
  induction l as [|item l IH]; [reflexivity|].
  cbn [flat_map filter]. rewrite filter_app, IH. unfold emitted.
  destruct (repeat item); reflexivity.
Qed.

Lemma filter_emitted_invokes this l :
  filter is_invoke (flat_map (emitted this) l) =
  map (fun item => invokeOf (fn item))
    (filter (fun item => negb (repeat item)) l).
Proof.
  induction l as [|item l IH]; [reflexivity|].
  cbn [flat_map filter]. rewrite filter_app, IH. unfold emitted.
  destruct (repeat item); reflexivity.
Qed.

(** X3. When [processRegistry] returns, the state checks in what it has
    added to the chain are those of the entries whose [repeat] flag is
    true, and there is at most one; the top-level invoke states are those
    of the entries whose [repeat] flag is false, one each and in the
    registry's order. *)
Theorem processRegistry_checks_follow_repeat_flag :
  forall (c c' : Chain) (R : JsMap.t ILambdaRegistery)
         (this this' : StepFunctionStack),
    processRegistry c R this = Returned (c', this') ->
    exists ext,
      c' = c ++ ext /\
      filter is_check ext =
        map (fun item => checkOf this (functionName (fn item)))
          (filter repeat (JsMap.values R)) /\
      length (filter is_check ext) <= 1 /\
      filter is_invoke ext =
        map (fun item => invokeOf (fn item))
          (filter (fun item => negb (repeat item)) (JsMap.values R)).
Proof.
  intros c c' R this this' H.
  pose proof (processRegistry_returned_buildable _ _ _ _ _ H) as Hb.
  apply processRegistry_returned in H as (-> & _).
  eexists. split; [reflexivity|].
  split; [apply filter_emitted_checks|].
  split; [|apply filter_emitted_invokes].
  rewrite filter_emitted_checks, length_map.
  now apply buildable_one_guard.
Qed.

Lemma processRegistry_checks_follow_repeat_flag_witness :
  exists c' this' ext,
    processRegistry [Pass "Step One For:TestStack"] (fnRegistry scenarioProps)
      (blankStack mockTable "test-tenant") = Returned (c', this') /\
    c' = [Pass "Step One For:TestStack"] ++ ext /\
    filter is_check ext =
      [checkOf (blankStack mockTable "test-tenant") "B"] /\
    length (filter is_check ext) <= 1 /\
    filter is_invoke ext = [invokeOf lambdaA].
Proof.
  destruct (processRegistry_checks_follow_repeat_flag
              [Pass "Step One For:TestStack"] _ (fnRegistry scenarioProps)
              (blankStack mockTable "test-tenant") _ eq_refl)
    as (ext & H1 & H2 & H3 & H4).
  do 2 eexists. exists ext.
  split; [reflexivity|]. split; [exact H1|].
  split; [exact H2|]. split; [exact H3|exact H4].
Defined.

(** X4. When [registerSingleRunFn] returns for a function named [n],
    [items] holds the state check under ["check" ++ n], the invoke state
    under [n] and the branch under ["choose" ++ n], whatever it held
    before, and every other key is as it was. *)
Theorem registerSingleRunFn_items :
  forall (c c' : Chain) (lambda : LambdaFunction)
         (this this' : StepFunctionStack),
    registerSingleRunFn c lambda this = Returned (c', this') ->
    JsMap.get ("check" ++ functionName lambda) (items this') =
      Some (checkOf this (functionName lambda)) /\
    JsMap.get (functionName lambda) (items this') =
      Some (invokeOf lambda) /\
    JsMap.get ("choose" ++ functionName lambda) (items this') =
      Some (choiceOf lambda) /\
    forall k,
      k <> ("check" ++ functionName lambda)%string ->
      k <> functionName lambda ->
      k <> ("choose" ++ functionName lambda)%string ->
      JsMap.get k (items this') = JsMap.get k (items this).
Proof.
  intros c c' lambda this this' H.
  destruct (guard_keys_distinct (functionName lambda)) as (H1 & H2 & H3).
  destruct (can_chain c) eqn:Hopen.
  - rewrite (registerSingleRunFn_open c lambda this Hopen) in H.
    injection H as _ <-.
    cbn [items set_items item_writes set_all fold_left fst snd repeat fn].
    repeat split.
    + rewrite JsMap_get_set_other by assumption.
      rewrite JsMap_get_set_other by assumption.
      apply JsMap_get_set_same.
    + rewrite JsMap_get_set_other by congruence.
      apply JsMap_get_set_same.
    + apply JsMap_get_set_same.
    + intros k K1 K2 K3.
      now rewrite !JsMap_get_set_other by assumption.
  - destruct (registerSingleRunFn_closed c lambda this Hopen) as (e & He).
    rewrite He in H. discriminate.
Qed.

Lemma registerSingleRunFn_items_witness :
  exists c' this',
    registerSingleRunFn [Pass "Step One For:TestStack"] mockLambda
      (blankStack mockTable "test-tenant") = Returned (c', this') /\
    JsMap.get "checkMockLambda" (items this') =
      Some (checkOf (blankStack mockTable "test-tenant") "MockLambda") /\
    JsMap.get "MockLambda" (items this') = Some (invokeOf mockLambda) /\
    JsMap.get "chooseMockLambda" (items this') = Some (choiceOf mockLambda).
Proof.
  do 2 eexists. split; [reflexivity|].
  destruct (registerSingleRunFn_items
              [Pass "Step One For:TestStack"] _ mockLambda
              (blankStack mockTable "test-tenant") _ eq_refl)
    as (H1 & H2 & H3 & _).
  split; [exact H1|]. split; [exact H2|exact H3].
Defined.

Lemma in_item_writes_invoke this item :
  In (functionName (fn item), invokeOf (fn item)) (item_writes this item).
Proof.
  unfold item_writes. destruct (repeat item); cbn; auto.
Qed.

Lemma LambdaFunction_name_inj (f g : LambdaFunction) :
  functionName f = functionName g -> f = g.
Proof. destruct f, g; cbn. now intros ->. Qed.

(** X5. Let no function of the registry be named ["check" ++ n] or
    ["choose" ++ n] for the name [n] of a function whose entry has [repeat]
    set.  Then, when [processRegistry] returns, [items] holds under the
    name of every registered function the invoke state of that function. *)
Theorem processRegistry_items_lookup :
  forall (c c' : Chain) (R : JsMap.t ILambdaRegistery)
         (this this' : StepFunctionStack),
    (forall e g,
       In e (JsMap.values R) -> In g (JsMap.values R) -> repeat g = true ->
       functionName (fn e) <> ("check" ++ functionName (fn g))%string /\
       functionName (fn e) <> ("choose" ++ functionName (fn g))%string) ->
    processRegistry c R this = Returned (c', this') ->
    forall e,
      In e (JsMap.values R) ->
      JsMap.get (functionName (fn e)) (items this') =
      Some (invokeOf (fn e)).
Proof.
  intros c c' R this this' Hfree H e He.
  apply processRegistry_returned in H as (_ & ->).
  cbn [items set_items]. apply get_set_all_agree.
  - intros v' Hin. apply in_flat_map in Hin as (g & Hg & Hin).
    unfold item_writes in Hin. destruct (repeat g) eqn:Hrep.
    + destruct (Hfree e g He Hg Hrep) as (Hc1 & Hc2).
      destruct Hin as [H|[H|[H|[]]]]; injection H as Hk Hv;
        try (symmetry in Hk; contradiction).
      subst v'. f_equal. now apply LambdaFunction_name_inj.
    + destruct Hin as [H|[]]. injection H as Hk Hv.
      subst v'. f_equal. now apply LambdaFunction_name_inj.
  - left. apply in_flat_map. exists e. split; [exact He|].
    apply in_item_writes_invoke.
Qed.

Lemma processRegistry_items_lookup_witness :
  exists c' this',
    processRegistry [Pass "Step One For:TestStack"] (fnRegistry scenarioProps)
      (blankStack mockTable "test-tenant") = Returned (c', this') /\
    forall e,
      In e (JsMap.values (fnRegistry scenarioProps)) ->
      JsMap.get (functionName (fn e)) (items this') = Some (invokeOf (fn e)).
Proof.
  do 2 eexists. split; [reflexivity|].
  eapply (processRegistry_items_lookup [Pass "Step One For:TestStack"] _
            (fnRegistry scenarioProps) (blankStack mockTable "test-tenant")
            _);
    [|reflexivity].
  cbn. intros e g [<-|[<-|[]]] [<-|[<-|[]]] Hrep; cbn; split; discriminate.
Defined.

(** X6. The keys of [items] can collide.  On a chain that can be continued,
    register a function named ["check" ++ n] with [repeat] false and then
    the function named [n] with [repeat] true: the plan has the invoke
    state of the first function, but [items] holds, under that function's
    name, the state check of the second one. *)
Theorem items_key_collision :
  forall (n k1 k2 : string) (c : Chain) (this : StepFunctionStack),
    can_chain c = true ->
    let shadowed := {| functionName := "check" ++ n |} in
    let guarded := {| functionName := n |} in
    exists c' this',
      processRegistry c
        [(k1, {| fn := shadowed; repeat := false |});
         (k2, {| fn := guarded; repeat := true |})] this =
        Returned (c', this') /\
      In (invokeOf shadowed) c' /\
      JsMap.get (functionName shadowed) (items this') =
        Some (checkOf this n) /\
      JsMap.get (functionName shadowed) (items this') <>
        Some (invokeOf shadowed).
Proof.
  intros n k1 k2 c this Hopen shadowed guarded.
  destruct (guard_keys_distinct n) as (H1 & H2 & H3).
  do 2 eexists.
  split; [apply (processRegistry_buildable _ _ _ Hopen); reflexivity|].
  assert (Hget : JsMap.get (functionName shadowed)
                   (items (set_items
                      (set_all (flat_map (item_writes this)
                         (JsMap.values
                            [(k1, {| fn := shadowed; repeat := false |});
                             (k2, {| fn := guarded; repeat := true |})])))
                      this)) = Some (checkOf this n)).
  { cbn [items set_items JsMap.values map snd flat_map item_writes repeat fn
         app set_all fold_left fst functionName shadowed guarded].
    rewrite JsMap_get_set_other by assumption.
    rewrite JsMap_get_set_other by assumption.
    apply JsMap_get_set_same. }
  split; [|split; [exact Hget|]].
  - apply in_or_app. right. cbn. now left.
  - rewrite Hget. discriminate.
Qed.

Lemma items_key_collision_witness :
  exists c' this',
    processRegistry [Pass "Step One For:TestStack"]
      [("first", {| fn := {| functionName := "checkB" |}; repeat := false |});
       ("second", entryB)]
      (blankStack mockTable "test-tenant") = Returned (c', this') /\
    In (invokeOf {| functionName := "checkB" |}) c' /\
    JsMap.get "checkB" (items this') =
      Some (checkOf (blankStack mockTable "test-tenant") "B") /\
    JsMap.get "checkB" (items this') <>
      Some (invokeOf {| functionName := "checkB" |}).
Proof.
  apply (items_key_collision "B" "first" "second"
           [Pass "Step One For:TestStack"]
           (blankStack mockTable "test-tenant")).
  reflexivity.
Defined.

Lemma in_plan_states_emitted this l item v :
  In item l ->
  In v (plan_states (emitted this item)) ->
  In v (plan_states (flat_map (emitted this) l)).
Proof.
  intros Hitem Hv. unfold plan_states in *.
  apply in_flat_map in Hv as (s & Hs & Hv).
  apply in_flat_map. exists s. split; [|exact Hv].
  apply in_flat_map. now exists item.
Qed.

Lemma item_writes_are_states this item k v :
  In (k, v) (item_writes this item) ->
  In v (plan_states (emitted this item)) /\ is_pass v = false.
Proof.
  unfold item_writes, emitted. destruct (repeat item); cbn;
    intros H; repeat destruct H as [H|H]; try contradiction;
    injection H as _ <-; (split; [|reflexivity]); auto 6.
Qed.

(** X7. In a stack the constructor returns, every state that [items] holds
    is a state of the plan (a state check, an invoke state or a branch);
    the pass states, the initial one and the skips, are never put
    there. *)
Theorem items_hold_plan_states :
  forall (id : string) (config : IStepFunctionProps)
         (st : StepFunctionStack),
    StepFunctionStack_new id config = Returned st ->
    exists plan,
      chainLink st = Some plan /\
      forall k v,
        JsMap.get k (items st) = Some v ->
        In v (plan_states plan) /\ is_pass v = false.
Proof.
  intros id config st Hnew.
  apply StepFunctionStack_new_returned in Hnew as (Hplan & Hitems & _).
  eexists. split; [exact Hplan|].
  intros k v Hget. rewrite Hitems in Hget.
  apply get_set_all_in in Hget as [Hin|Hget]; [|discriminate Hget].
  apply in_flat_map in Hin as (item & Hitem & Hin).
  apply item_writes_are_states in Hin as (Hv & Hpass).
  split; [|exact Hpass].
  right. now apply (in_plan_states_emitted _ _ item).
Qed.

Lemma items_hold_plan_states_witness :
  exists st plan,
    StepFunctionStack_new "TestStack" scenarioProps = Returned st /\
    chainLink st = Some plan /\
    forall k v,
      JsMap.get k (items st) = Some v ->
      In v (plan_states plan) /\ is_pass v = false.
Proof.
  eexists.
  destruct (items_hold_plan_states "TestStack" scenarioProps _ eq_refl)
    as (plan & Hplan & Hitems).
  exists plan. split; [reflexivity|]. split; [exact Hplan|exact Hitems].
Defined.

(** * Properties of the data and function packages *)

(** X9. The state check [registerCheck] creates addresses the stack's table
    by the attributes [id] and [tenant], in this order: these are the
    identifier of the data package's [SystemTable], and both are required
    fields of that model. *)
Theorem registerCheck_reads_by_table_identifier :
  forall (lambdaName : string) (this : StepFunctionStack),
    exists id key resultPath this',
      registerCheck lambdaName this =
        Returned (DynamoGetItem id (systemTableName this) key resultPath,
                  this') /\
      Some (map fst key) = model_identifier SystemTable /\
      Forall (fun k => exists f,
                JsMap.get k (model_fields SystemTable) = Some f /\
                field_required f = true) (map fst key) /\
      attr_string "id" key = Some lambdaName /\
      attr_string "tenant" key = Some (tenant this).
Proof.
  intros lambdaName this. do 4 eexists.
  split; [apply registerCheck_returns|].
  split; [reflexivity|]. split; [|split; reflexivity].
  repeat constructor; eexists; split; reflexivity.
Qed.

(** The role the handler looks for in a response. *)
Lemma handler_cases send environment log :
  handler send environment log =
  match send {| IdentityPoolId := IDENTITY_POOL_ID environment |} with
  | Returned resp =>
      if falsy match Roles resp with
               | Some roles => JsMap.get "authenticated" roles
               | None => None
               end
      then (Thrown "Error: Authenticated role ARN not found",
            log ++ [logger_error
                      "Failed to update domain: Error: Authenticated role ARN not found"])
      else (Returned tt, log ++ [logger_info "Domain updated successfully"])
  | Thrown e =>
      (Thrown e, log ++ [logger_error ("Failed to update domain: " ++ e)])
  end.
Proof.
  unfold handler.
  destruct (send _) as [resp|e]; [|reflexivity].
  destruct (falsy _); reflexivity.
Qed.

(** X10. The handler returns normally exactly when the client's answer to
    the one command it sends (the identity pool id of the environment)
    holds, under [Roles.authenticated], a string that is not empty. *)
Theorem handler_succeeds_iff :
  forall (send : GetIdentityPoolRolesCommand ->
                 outcome GetIdentityPoolRolesResponse)
         (environment : Env) (log : list LogEntry),
    fst (handler send environment log) = Returned tt <->
    exists resp roles arn,
      send {| IdentityPoolId := IDENTITY_POOL_ID environment |}
        = Returned resp /\
      Roles resp = Some roles /\
      JsMap.get "authenticated" roles = Some arn /\
      arn <> ""%string.
Proof.
  intros send environment log. rewrite handler_cases.
  destruct (send _) as [resp|e].
  - destruct (Roles resp) as [roles|] eqn:Hroles.
    + destruct (JsMap.get "authenticated" roles) as [arn|] eqn:Harn;
        cbn [falsy].
      * destruct (String.eqb_spec arn "") as [->|Hne]; cbn [fst]; split.
        -- discriminate.
        -- intros (r & rs & a & Hr & Hrs & Ha & Hn).
           injection Hr as <-. rewrite Hroles in Hrs. injection Hrs as <-.
           rewrite Harn in Ha. injection Ha as <-. contradiction.
        -- intros _. exists resp, roles, arn. auto.
        -- reflexivity.
      * cbn [fst]. split; [discriminate|].
        intros (r & rs & a & Hr & Hrs & Ha & _).
        injection Hr as <-. rewrite Hroles in Hrs. injection Hrs as <-.
        rewrite Harn in Ha. discriminate.
    + cbn [falsy fst]. split; [discriminate|].
      intros (r & rs & a & Hr & Hrs & _).
      injection Hr as <-. rewrite Hroles in Hrs. discriminate.
  - cbn [fst]. split; [discriminate|].
    intros (r & _ & _ & Hr & _). discriminate.
Qed.

(** X11. Every call of the handler writes exactly one log entry, after the
    entries that were there: the info entry "Domain updated successfully"
    when it returns, and when it throws the error entry "Failed to update
    domain: " followed by the text of the error it throws. *)
Theorem handler_logs_its_outcome :
  forall (send : GetIdentityPoolRolesCommand ->
                 outcome GetIdentityPoolRolesResponse)
         (environment : Env) (log : list LogEntry),
    snd (handler send environment log) =
    log ++ [match fst (handler send environment log) with
            | Returned _ => logger_info "Domain updated successfully"
            | Thrown error =>
                logger_error ("Failed to update domain: " ++ error)
            end].
Proof.
  intros send environment log. rewrite handler_cases.
  destruct (send _) as [resp|e]; [|reflexivity].
  destruct (falsy _); reflexivity.
Qed.

(** X12. The handler's errors: an error of the client is thrown again as it
    is; an answer without [Roles], without an [authenticated] role, or
    with an empty one makes the handler throw "Error: Authenticated role
    ARN not found". *)
Theorem handler_failure_modes :
  forall (send : GetIdentityPoolRolesCommand ->
                 outcome GetIdentityPoolRolesResponse)
         (environment : Env) (log : list LogEntry),
    let command := {| IdentityPoolId := IDENTITY_POOL_ID environment |} in
    let missing := Thrown "Error: Authenticated role ARN not found" in
    (forall e, send command = Thrown e ->
       fst (handler send environment log) = Thrown e) /\
    (forall resp, send command = Returned resp -> Roles resp = None ->
       fst (handler send environment log) = missing) /\
    (forall resp roles, send command = Returned resp ->
       Roles resp = Some roles ->
       JsMap.get "authenticated" roles = None ->
       fst (handler send environment log) = missing) /\
    (forall resp roles, send command = Returned resp ->
       Roles resp = Some roles ->
       JsMap.get "authenticated" roles = Some ""%string ->
       fst (handler send environment log) = missing).
Proof.
  intros send environment log command missing.
  rewrite handler_cases. fold command.
  repeat split.
  - intros e ->. reflexivity.
  - intros resp -> ->. reflexivity.
  - intros resp roles -> -> ->. reflexivity.
  - intros resp roles -> -> ->. reflexivity.
Qed.

(** * The registry as the caller builds it *)

Lemma length_emitted this l :
  length (flat_map (emitted this) l) =
  length l + length (filter repeat l).
Proof.
  induction l as [|item l IH]; [reflexivity|].
  cbn [flat_map filter]. rewrite length_app, IH. unfold emitted.
  destruct (repeat item); cbn [length]; lia.
Qed.

(** X13. Building a stack and registering its [chainLink], as the test
    suite does: when the constructor and [registerStateMachine] return, the
    state machine's definition is the plan, which has the initial pass
    state, one top-level state for every registry entry and one more for
    every entry whose [repeat] flag is true; registering changes neither
    the plan nor [items], and the timeout given was not negative. *)
Theorem chainLink_registered_as_definition :
  forall (id : string) (config : IStepFunctionProps) (name : string)
         (t : Z) (st st' : StepFunctionStack) (plan : Chain),
    StepFunctionStack_new id config = Returned st ->
    chainLink st = Some plan ->
    registerStateMachine plan name t st = Returned (tt, st') ->
    option_map sm_definition (stateMachine st') = Some plan /\
    hd_error plan = Some (Pass ("Step One For:" ++ id)) /\
    length plan =
      1 + JsMap.size (fnRegistry config)
        + length (filter repeat (JsMap.values (fnRegistry config))) /\
    chainLink st' = Some plan /\
    items st' = items st /\
    (0 <= t)%Z.
Proof.
  intros id config name t st st' plan Hnew Hplan Hreg.
  apply StepFunctionStack_new_returned in Hnew as (Hlink & _).
  rewrite Hlink in Hplan. injection Hplan as <-.
  unfold registerStateMachine, Duration_minutes in Hreg.
  destruct (Z.ltb_spec t 0) as [Hneg|Hpos]; [discriminate|].
  injection Hreg as <-.
  split; [reflexivity|]. split; [reflexivity|].
  split; [|split; [exact Hlink|split; [reflexivity|exact Hpos]]].
  cbn [length]. rewrite length_emitted.
  unfold JsMap.size, JsMap.values. now rewrite length_map.
Qed.

Lemma chainLink_registered_as_definition_witness :
  exists st st' plan,
    StepFunctionStack_new "TestStack" mockProps = Returned st /\
    chainLink st = Some plan /\
    registerStateMachine plan "TestStateMachine" 5 st = Returned (tt, st') /\
    option_map sm_definition (stateMachine st') = Some plan /\
    hd_error plan = Some (Pass "Step One For:TestStack") /\
    length plan = 2 /\
    chainLink st' = Some plan /\
    items st' = items st /\
    (0 <= 5)%Z.
Proof.
  do 3 eexists.
  split; [reflexivity|]. split; [reflexivity|]. split; [reflexivity|].
  eapply (chainLink_registered_as_definition "TestStack" mockProps
            "TestStateMachine" 5 _ _ _);
    reflexivity.
Defined.

(** X14. An entry registered with [Map.set] under a key the registry does
    not have yet is processed last: when [processRegistry] returns, the
    entry's states come after the states of all earlier entries. *)
Theorem processRegistry_new_key_last :
  forall (c c' : Chain) (k : string) (item : ILambdaRegistery)
         (R : JsMap.t ILambdaRegistery) (this this' : StepFunctionStack),
    JsMap.get k R = None ->
    processRegistry c (JsMap.set k item R) this = Returned (c', this') ->
    c' = c ++ flat_map (emitted this) (JsMap.values R) ++ emitted this item.
Proof.
  intros c c' k item R this this' Hfresh H.
  rewrite (JsMap_set_fresh _ _ _ Hfresh) in H.
  apply processRegistry_returned in H as (-> & _).
  unfold JsMap.values.
  rewrite map_app, flat_map_app. cbn [map snd flat_map].
  now rewrite app_nil_r.
Qed.

Lemma processRegistry_new_key_last_witness :
  JsMap.get "B" mockFnRegistry = None /\
  exists c' this',
    processRegistry [Pass "Step One For:TestStack"]
      (JsMap.set "B" entryB mockFnRegistry)
      (blankStack mockTable "test-tenant") = Returned (c', this') /\
    c' = [Pass "Step One For:TestStack"]
           ++ flat_map (emitted (blankStack mockTable "test-tenant"))
                (JsMap.values mockFnRegistry)
           ++ emitted (blankStack mockTable "test-tenant") entryB.
Proof.
  split; [reflexivity|].
  do 2 eexists. split; [reflexivity|].
  eapply (processRegistry_new_key_last [Pass "Step One For:TestStack"] _ "B"
            entryB mockFnRegistry (blankStack mockTable "test-tenant") _);
    reflexivity.
Defined.

(** X15. An entry registered with [Map.set] under a key the registry
    already has replaces the earlier entry where it stands: when
    [processRegistry] returns, the states of the new entry are where the
    old entry's states would have been, between those of the entries
    before and after it. *)
Theorem processRegistry_same_key_in_place :
  forall (c c' : Chain) (k : string) (old item : ILambdaRegistery)
         (R1 R2 : JsMap.t ILambdaRegistery) (this this' : StepFunctionStack),
    JsMap.get k R1 = None ->
    processRegistry c (JsMap.set k item (R1 ++ (k, old) :: R2)) this =
      Returned (c', this') ->
    c' = c ++ flat_map (emitted this) (JsMap.values R1)
           ++ emitted this item
           ++ flat_map (emitted this) (JsMap.values R2).
Proof.
  intros c c' k old item R1 R2 this this' Hfresh H.
  rewrite (JsMap_set_present _ _ _ _ _ Hfresh) in H.
  apply processRegistry_returned in H as (-> & _).
  unfold JsMap.values.
  rewrite map_app, flat_map_app. reflexivity.
Qed.

Lemma processRegistry_same_key_in_place_witness :
  JsMap.get "TestLambda"
    (JsMap.set "A" {| fn := lambdaA; repeat := false |} JsMap.empty) = None /\
  exists c' this',
    processRegistry [Pass "Step One For:TestStack"]
      (JsMap.set "TestLambda" {| fn := mockLambda; repeat := false |}
         (JsMap.set "A" {| fn := lambdaA; repeat := false |} JsMap.empty
            ++ ("TestLambda", {| fn := lambdaOld; repeat := false |})
            :: JsMap.set "B" entryB JsMap.empty))
      (blankStack mockTable "test-tenant") = Returned (c', this') /\
    c' = [Pass "Step One For:TestStack"; invokeOf lambdaA;
          invokeOf mockLambda;
          checkOf (blankStack mockTable "test-tenant") "B";
          choiceOf lambdaB].
Proof.
  split; [reflexivity|].
  do 2 eexists. split; [reflexivity|].
  eapply (processRegistry_same_key_in_place
            [Pass "Step One For:TestStack"] _ "TestLambda"
            {| fn := lambdaOld; repeat := false |}
            {| fn := mockLambda; repeat := false |}
            (JsMap.set "A" {| fn := lambdaA; repeat := false |} JsMap.empty)
            (JsMap.set "B" entryB JsMap.empty)
            (blankStack mockTable "test-tenant") _);
    reflexivity.
Defined.
